(** * PriorityExpiryCache: the Go skeleton of [Cache.go], embedded and verified

    [Cache.go] declares a cache type with one field, a constructor and three
    methods ([Get], [Set], [SetMaxItems]) that share a private helper
    [evictItems].  The methods have pointer receivers, so the embedding
    threads the pointed-to struct through a small state monad.  The bodies
    are the ones of the file: [Get] returns [nil], [evictItems] is empty,
    [Set] only calls [evictItems], [SetMaxItems] stores the field and calls
    [evictItems]. *)

From Stdlib Require Import ZArith List String Lia.
Import ListNotations.
Open Scope Z_scope.

(** ** The Go types the file mentions *)

Module Go.

(** [int]: no arithmetic is ever done on the capacity, it is only stored
    and read back, so the integer is kept as it is. *)
Definition int : Type := Z.

(** [time.Time]: an instant, counted in nanoseconds since the epoch. *)
Definition Time : Type := Z.

(** Dynamic values a caller may box into an [interface{}]. *)
Inductive dyn : Type :=
| DInt (z : Z)
| DString (s : string)
| DBool (b : bool).

(** [interface{}]: either [nil] or a boxed dynamic value. *)
Definition interface : Type := option dyn.

Definition nil : interface := None.

Definition box (d : dyn) : interface := Some d.

Definition isNil (i : interface) : bool :=
  match i with
  | None => true
  | Some _ => false
  end.

End Go.

(** ** The struct *)

(** [type PriorityExpiryCache struct { maxItems int }]: the only field. *)
Record PriorityExpiryCache : Type := mkCache { maxItems : Go.int }.

(** ** Methods on [*PriorityExpiryCache] as state transformers

    The receiver is the pointer [NewCache] returned; a computation takes the
    struct it points to and gives back a result and the struct as the method
    leaves it. *)

Definition M (A : Type) : Type := PriorityExpiryCache -> A * PriorityExpiryCache.

Definition ret {A : Type} (a : A) : M A := fun c => (a, c).

Definition bind {A B : Type} (m : M A) (k : A -> M B) : M B :=
  fun c => let (a, c') := m c in k a c'.

Definition store_maxItems (n : Go.int) : M unit :=
  fun _ => (tt, mkCache n).

Notation "m1 ;; m2" := (bind m1 (fun _ => m2))
  (at level 61, right associativity).

Definition result {A : Type} (m : M A) (c : PriorityExpiryCache) : A := fst (m c).

Definition after {A : Type} (m : M A) (c : PriorityExpiryCache)
  : PriorityExpiryCache := snd (m c).

(** [func NewCache(maxItems int) *PriorityExpiryCache] *)
Definition NewCache (maxItems : Go.int) : PriorityExpiryCache :=
  mkCache maxItems.

(** [func (c *PriorityExpiryCache) evictItems()]: the body is empty. *)
Definition evictItems : M unit := ret tt.

(** [func (c *PriorityExpiryCache) Get(key string) interface{}]:
    [return nil]. *)
Definition Get (key : string) : M Go.interface := ret Go.nil.

(** [func (c *PriorityExpiryCache) Set(key, value, priority, expire)]:
    the body is the call [c.evictItems()]. *)
Definition Set_ (key : string) (value : Go.interface) (priority : Go.int)
    (expire : Go.Time) : M unit :=
  evictItems.

(** [func (c *PriorityExpiryCache) SetMaxItems(maxItems int)]:
    [c.maxItems = maxItems] and then [c.evictItems()]. *)
Definition SetMaxItems (maxItems : Go.int) : M unit :=
  store_maxItems maxItems ;; evictItems.

(** ** Call sequences *)

Inductive call : Type :=
| CGet (key : string)
| CSet (key : string) (value : Go.interface) (priority : Go.int)
       (expire : Go.Time)
| CSetMaxItems (maxItems : Go.int).

Definition exec (cl : call) (c : PriorityExpiryCache) : PriorityExpiryCache :=
  match cl with
  | CGet key => after (Get key) c
  | CSet key value priority expire => after (Set_ key value priority expire) c
  | CSetMaxItems n => after (SetMaxItems n) c
  end.

Fixpoint run (calls : list call) (c : PriorityExpiryCache) : PriorityExpiryCache :=
  match calls with
  | [] => c
  | cl :: rest => run rest (exec cl c)
  end.

(** The capacity a call sequence leaves behind: the argument of its last
    [SetMaxItems], or the one it started with. *)
Fixpoint lastMaxItems (calls : list call) (n : Go.int) : Go.int :=
  match calls with
  | [] => n
  | CSetMaxItems n' :: rest => lastMaxItems rest n'
  | _ :: rest => lastMaxItems rest n
  end.

(** ** What a caller can observe *)

(** The struct has no entry store, so the entries of a cache are the ones
    [Get] hands back. *)
Definition lookup (c : PriorityExpiryCache) (key : string) : Go.interface :=
  result (Get key) c.

Definition live (c : PriorityExpiryCache) (key : string) : bool :=
  negb (Go.isNil (lookup c key)).

(** Number of live entries among the keys of [keys], each key counted once. *)
Definition size_among (keys : list string) (c : PriorityExpiryCache) : nat :=
  List.length (filter (live c) (nodup string_dec keys)).

(** ** Scenarios used below *)

Open Scope string_scope.

(** [NewCache(2)] then [Set("a", 1, 1, 10)], read back before the expiry. *)
Definition roundtrip_calls : list call :=
  [CSet "a" (Go.box (Go.DInt 1)) 1 10].

(** Capacity 1; "e1" has expiry 0 (expired at instant 50) and priority 9,
    "e2" has expiry 100 (not expired at 50) and the lower priority 1. *)
Definition expiry_calls : list call :=
  [CSet "e1" (Go.box (Go.DInt 1)) 9 0;
   CSet "e2" (Go.box (Go.DInt 2)) 1 100].

(** Three entries of priority 1, none expiring before instant 100. *)
Definition abc_calls : list call :=
  [CSet "A" (Go.box (Go.DString "va")) 1 100;
   CSet "B" (Go.box (Go.DString "vb")) 1 100;
   CSet "C" (Go.box (Go.DString "vc")) 1 100].

(** The same three entries, then one forced eviction by shrinking to 2. *)
Definition lru_calls : list call := abc_calls ++ [CSetMaxItems 2].

(** The same three entries, a read of "A", then one forced eviction. *)
Definition touch_calls : list call :=
  abc_calls ++ [CGet "A"; CSetMaxItems 2].

(** Key "x" written with priority 1 and written again with priority 5. *)
Definition update_calls : list call :=
  [CSet "x" (Go.box (Go.DInt 1)) 1 100;
   CSet "x" (Go.box (Go.DInt 2)) 5 100].

(** ** Resizing calls *)

Definition isResize (cl : call) : bool :=
  match cl with
  | CSetMaxItems _ => true
  | _ => false
  end.

Definition noResize (calls : list call) : bool :=
  forallb (fun cl => negb (isResize cl)) calls.

(** ** The methods on pointers

    [NewCache] returns [&PriorityExpiryCache{...}] and the methods take a
    [*PriorityExpiryCache]: a pointer is [nil] or the address of a struct
    that some [NewCache] allocated.  The store below holds the structs in
    the order of their allocation; nothing is ever freed.  A method called
    on [nil] runs until it dereferences its receiver, which only the field
    assignment of [SetMaxItems] does. *)

Module Heap.

Definition addr : Type := nat.

(** [*PriorityExpiryCache] *)
Definition ptr : Type := option addr.

Definition nilptr : ptr := None.

Definition heap : Type := list PriorityExpiryCache.

(** A call returns a result and the store it leaves, or panics. *)
Inductive outcome (A : Type) : Type :=
| Done (a : A) (h : heap)
| Panic.

Arguments Done {A} a h.
Arguments Panic {A}.

Definition H (A : Type) : Type := heap -> outcome A.

Definition hret {A : Type} (a : A) : H A := fun h => Done a h.

Definition hbind {A B : Type} (m : H A) (k : A -> H B) : H B :=
  fun h =>
    match m h with
    | Done a h' => k a h'
    | Panic => Panic
    end.

Fixpoint update (h : heap) (a : addr) (s : PriorityExpiryCache) : heap :=
  match h, a with
  | [], _ => []
  | _ :: t, O => s :: t
  | x :: t, S a' => x :: update t a' s
  end.

Definition deref (c : ptr) (h : heap) : option PriorityExpiryCache :=
  match c with
  | None => None
  | Some a => nth_error h a
  end.

(** [c.maxItems = n]: a nil pointer dereference panics. *)
Definition assign_maxItems (c : ptr) (n : Go.int) : H unit :=
  fun h =>
    match c with
    | None => Panic
    | Some a =>
        match nth_error h a with
        | Some _ => Done tt (update h a (mkCache n))
        | None => Panic
        end
    end.

(** [return &PriorityExpiryCache{maxItems: maxItems}] *)
Definition NewCache (maxItems : Go.int) : H ptr :=
  fun h => Done (Some (List.length h)) (h ++ [mkCache maxItems])%list.

Definition evictItems (c : ptr) : H unit := hret tt.

Definition Get (c : ptr) (key : string) : H Go.interface := hret Go.nil.

Definition Set_ (c : ptr) (key : string) (value : Go.interface)
    (priority : Go.int) (expire : Go.Time) : H unit :=
  evictItems c.

Definition SetMaxItems (c : ptr) (maxItems : Go.int) : H unit :=
  hbind (assign_maxItems c maxItems) (fun _ => evictItems c).

(** Programs over any number of caches. *)
Inductive stmt : Type :=
| SNew (maxItems : Go.int)
| SGet (c : ptr) (key : string)
| SSet (c : ptr) (key : string) (value : Go.interface) (priority : Go.int)
       (expire : Go.Time)
| SResize (c : ptr) (maxItems : Go.int).

Definition heap_of {A : Type} (o : outcome A) : option heap :=
  match o with
  | Done _ h => Some h
  | Panic => None
  end.

Definition exec (st : stmt) (h : heap) : option heap :=
  match st with
  | SNew n => heap_of (NewCache n h)
  | SGet c key => heap_of (Get c key h)
  | SSet c key value priority expire => heap_of (Set_ c key value priority expire h)
  | SResize c n => heap_of (SetMaxItems c n h)
  end.

Fixpoint run (prog : list stmt) (h : heap) : option heap :=
  match prog with
  | [] => Some h
  | st :: rest =>
      match exec st h with
      | Some h' => run rest h'
      | None => None
      end
  end.

(** Every [SetMaxItems] of the program has a receiver allocated by then,
    in a store that starts with [len] structs. *)
Fixpoint resizesAllocated (prog : list stmt) (len : nat) : bool :=
  match prog with
  | [] => true
  | SNew _ :: rest => resizesAllocated rest (S len)
  | SResize c _ :: rest =>
      match c with
      | Some a => Nat.ltb a len && resizesAllocated rest len
      | None => false
      end
  | _ :: rest => resizesAllocated rest len
  end.

(** No [SetMaxItems] of the program has the receiver at address [a]. *)
Fixpoint neverResizes (a : addr) (prog : list stmt) : bool :=
  match prog with
  | [] => true
  | SResize (Some b) _ :: rest => negb (Nat.eqb a b) && neverResizes a rest
  | _ :: rest => neverResizes a rest
  end.

Definition allocations (prog : list stmt) : nat :=
  List.length (filter (fun st => match st with SNew _ => true | _ => false end) prog).

End Heap.

(** * Properties *)

(** ** The monad *)

Section MonadLaws.

Context {A B C : Type}.

Lemma bind_ret_l (a : A) (k : A -> M B) (c : PriorityExpiryCache) :
  bind (ret a) k c = k a c.
Proof. reflexivity. Qed.

Lemma bind_ret_r (m : M A) (c : PriorityExpiryCache) :
  bind m ret c = m c.
Proof. unfold bind, ret. destruct (m c); reflexivity. Qed.

Lemma bind_assoc (m : M A) (k : A -> M B) (h : B -> M C)
    (c : PriorityExpiryCache) :
  bind (bind m k) h c = bind m (fun a => bind (k a) h) c.
Proof. unfold bind. destruct (m c); reflexivity. Qed.

End MonadLaws.

Lemma after_bind {A B : Type} (m : M A) (k : A -> M B) (c : PriorityExpiryCache) :
  after (bind m k) c = after (k (result m c)) (after m c).
Proof. unfold after, result, bind. destruct (m c); reflexivity. Qed.

Lemma after_ret {A : Type} (a : A) (c : PriorityExpiryCache) :
  after (ret a) c = c.
Proof. reflexivity. Qed.

(** ** One method at a time *)

Lemma evictItems_after (c : PriorityExpiryCache) : after evictItems c = c.
Proof. unfold evictItems. apply after_ret. Qed.

Lemma Get_after (key : string) (c : PriorityExpiryCache) :
  after (Get key) c = c.
Proof. unfold Get. apply after_ret. Qed.

Lemma Get_result (key : string) (c : PriorityExpiryCache) :
  result (Get key) c = Go.nil.
Proof. reflexivity. Qed.

Lemma Set_after (key : string) (value : Go.interface) (priority : Go.int)
    (expire : Go.Time) (c : PriorityExpiryCache) :
  after (Set_ key value priority expire) c = c.
Proof. unfold Set_. apply evictItems_after. Qed.

Lemma store_maxItems_after (n : Go.int) (c : PriorityExpiryCache) :
  after (store_maxItems n) c = mkCache n.
Proof. reflexivity. Qed.

Lemma SetMaxItems_after (n : Go.int) (c : PriorityExpiryCache) :
  after (SetMaxItems n) c = mkCache n.
Proof.
  unfold SetMaxItems.
  rewrite after_bind, evictItems_after.
  apply store_maxItems_after.
Qed.

Lemma cache_eta (c : PriorityExpiryCache) : mkCache (maxItems c) = c.
Proof. destruct c; reflexivity. Qed.

Create Rewrite HintDb cache.
#[local] Hint Rewrite evictItems_after Get_after Set_after SetMaxItems_after
  : cache.

Ltac step_cache := simpl exec; autorewrite with cache.

(** ** Call sequences *)

Lemma exec_state (cl : call) (c : PriorityExpiryCache) :
  exec cl c = mkCache (lastMaxItems [cl] (maxItems c)).
Proof.
  destruct cl; step_cache; simpl; auto using eq_sym, cache_eta.
Qed.

Lemma run_app (xs ys : list call) (c : PriorityExpiryCache) :
  run (xs ++ ys) c = run ys (run xs c).
Proof.
  revert c. induction xs as [|cl xs IH]; intro c; simpl.
  - reflexivity.
  - apply IH.
Qed.

Lemma run_state (calls : list call) (c : PriorityExpiryCache) :
  run calls c = mkCache (lastMaxItems calls (maxItems c)).
Proof.
  revert c. induction calls as [|cl calls IH]; intro c.
  - simpl. symmetry. apply cache_eta.
  - cbn [run]. rewrite IH.
    destruct cl; step_cache; reflexivity.
Qed.

Lemma run_NewCache (calls : list call) (n : Go.int) :
  run calls (NewCache n) = NewCache (lastMaxItems calls n).
Proof. apply run_state. Qed.

(** Every value of the struct is the state of a fresh cache. *)
Lemma all_states_fresh (c : PriorityExpiryCache) : c = NewCache (maxItems c).
Proof. symmetry. apply cache_eta. Qed.

(** ** Observations *)

Lemma lookup_nil (c : PriorityExpiryCache) (key : string) :
  lookup c key = Go.nil.
Proof. apply Get_result. Qed.

Lemma live_false (c : PriorityExpiryCache) (key : string) :
  live c key = false.
Proof. unfold live. rewrite lookup_nil. reflexivity. Qed.

Lemma filter_live_nil (c : PriorityExpiryCache) (keys : list string) :
  filter (live c) keys = [].
Proof.
  induction keys as [|k keys IH]; cbn [filter].
  - reflexivity.
  - rewrite live_false. exact IH.
Qed.

Lemma size_among_zero (keys : list string) (c : PriorityExpiryCache) :
  size_among keys c = 0%nat.
Proof. unfold size_among. rewrite filter_live_nil. reflexivity. Qed.

(** * The properties of the specification, on the code *)

(** C1 (round trip), evaluated on the code.  The specification wants
    [Get] right after [Set key value ...] to hand [value] back while the
    entry has not expired.  On the code the read after a write of any boxed
    value returns [nil], which is not that value; in particular
    [NewCache(2)], [Set("a", 1, 1, 10)], [Get("a")] yields [nil]. *)
Theorem roundtrip_get_after_set_is_nil :
  forall (c : PriorityExpiryCache) (key : string) (d : Go.dyn)
         (priority : Go.int) (expire : Go.Time),
    lookup (after (Set_ key (Go.box d) priority expire) c) key = Go.nil
    /\ lookup (after (Set_ key (Go.box d) priority expire) c) key <> Go.box d
    /\ lookup (run roundtrip_calls (NewCache 2)) "a" = Go.nil.
Proof.
  intros c key d priority expire.
  rewrite Set_after, lookup_nil.
  split; [reflexivity|].
  split; [|reflexivity].
  unfold Go.nil, Go.box. discriminate.
Qed.

(** C3 (expiry precedence), evaluated on the code.  Capacity 1, an entry
    "e1" that has expired and an entry "e2" of lower priority that has not:
    the specification keeps "e2" and evicts "e1".  On the code the eviction
    step changes nothing, the state is the one of the fresh cache, and "e2"
    reads back as [nil] like "e1". *)
Theorem expiry_precedence_on_code :
  run expiry_calls (NewCache 1) = NewCache 1
  /\ lookup (run expiry_calls (NewCache 1)) "e2" = Go.nil
  /\ lookup (run expiry_calls (NewCache 1)) "e1" = Go.nil
  /\ (forall c : PriorityExpiryCache, after evictItems c = c).
Proof.
  split; [reflexivity|].
  split; [apply lookup_nil|].
  split; [apply lookup_nil|].
  exact evictItems_after.
Qed.

(** C4 (LRU within a tier), evaluated on the code.  Entries "A", "B", "C"
    of one priority, written in that order, then the capacity lowered from
    3 to 2: the specification removes "A" and keeps "B" and "C".  On the
    code "B" and "C" read back as [nil] and no entry is live. *)
Theorem lru_within_tier_on_code :
  lookup (run lru_calls (NewCache 3)) "B" = Go.nil
  /\ lookup (run lru_calls (NewCache 3)) "C" = Go.nil
  /\ size_among ["A"; "B"; "C"] (run lru_calls (NewCache 3)) = 0%nat
  /\ size_among ["A"; "B"; "C"] (run abc_calls (NewCache 3)) = 0%nat.
Proof. repeat split. Qed.

(** C5 (a read refreshes recency), evaluated on the code.  Entries "A",
    "B", "C" of one priority, a read of "A", then the capacity lowered from
    3 to 2: the specification has the read hit, removes "B" and keeps "A"
    and "C".  On the code the read of "A" returns [nil], and after the
    resize "A" and "C" read back as [nil]. *)
Theorem get_touch_on_code :
  result (Get "A") (run abc_calls (NewCache 3)) = Go.nil
  /\ lookup (run touch_calls (NewCache 3)) "A" = Go.nil
  /\ lookup (run touch_calls (NewCache 3)) "C" = Go.nil
  /\ size_among ["A"; "B"; "C"] (run touch_calls (NewCache 3)) = 0%nat.
Proof. repeat split. Qed.

(** C6 (update in place), evaluated on the code.  Key "x" written with
    priority 1 and again with priority 5: the specification leaves exactly
    one live entry for "x".  On the code there is none: "x" reads back as
    [nil] and the state is the one of the fresh cache, which holds no
    priority tiers at all. *)
Theorem update_in_place_on_code :
  size_among ["x"] (run update_calls (NewCache 10)) = 0%nat
  /\ lookup (run update_calls (NewCache 10)) "x" = Go.nil
  /\ run update_calls (NewCache 10) = NewCache 10.
Proof. repeat split. Qed.

(** C8 ([Get] returns [nil]).  In the state reached from [NewCache] by any
    sequence of calls, [Get] of any key returns [nil]; this holds right
    after a [Set] of that very key, whatever value was written. *)
Theorem Get_returns_nil :
  forall (n : Go.int) (calls : list call) (key : string),
    result (Get key) (run calls (NewCache n)) = Go.nil
    /\ (forall (value : Go.interface) (priority : Go.int) (expire : Go.Time),
          result (Get key)
            (run (calls ++ [CSet key value priority expire]) (NewCache n))
          = Go.nil).
Proof.
  intros n calls key. split.
  - apply Get_result.
  - intros value priority expire. apply Get_result.
Qed.

(** C9 ([Set] and [Get] leave the state alone).  For every cache state and
    all arguments, the state after [Set] is the state before, so its
    [maxItems] field is unchanged, and the state after [Get] is the state
    before; so is the state after the helper [evictItems] that [Set]
    calls. *)
Theorem Set_Get_frame :
  forall (c : PriorityExpiryCache) (key : string) (value : Go.interface)
         (priority : Go.int) (expire : Go.Time),
    after (Set_ key value priority expire) c = c
    /\ maxItems (after (Set_ key value priority expire) c) = maxItems c
    /\ after (Get key) c = c
    /\ maxItems (after (Get key) c) = maxItems c
    /\ after evictItems c = c.
Proof.
  intros c key value priority expire.
  rewrite Set_after, Get_after, evictItems_after.
  repeat split.
Qed.

(** C10 ([SetMaxItems]: the last write wins).  For every cache state and all
    integers [a] and [b]: after [SetMaxItems b] the field is [b], whatever
    the state was; [SetMaxItems a] then [SetMaxItems b] gives the state of
    [SetMaxItems b] alone; [SetMaxItems b] twice gives the state of once;
    and [NewCache b] starts with the field [b], the state [SetMaxItems b]
    produces from any cache. *)
Theorem SetMaxItems_last_write_wins :
  forall (c c' : PriorityExpiryCache) (a b : Go.int),
    maxItems (after (SetMaxItems b) c) = b
    /\ after (SetMaxItems b) c = after (SetMaxItems b) c'
    /\ after (SetMaxItems b) (after (SetMaxItems a) c) = after (SetMaxItems b) c
    /\ after (SetMaxItems b) (after (SetMaxItems b) c) = after (SetMaxItems b) c
    /\ maxItems (NewCache b) = b
    /\ after (SetMaxItems b) c = NewCache b
    /\ after (SetMaxItems b) (NewCache a) = NewCache b.
Proof.
  intros c c' a b.
  rewrite !SetMaxItems_after.
  repeat split.
Qed.

(** * Further properties of the code *)

(** ** Sequences of calls on one cache *)

Lemma lastMaxItems_app (xs ys : list call) (n : Go.int) :
  lastMaxItems (xs ++ ys) n = lastMaxItems ys (lastMaxItems xs n).
Proof.
  revert n. induction xs as [|cl xs IH]; intro n.
  - reflexivity.
  - destruct cl; cbn [app lastMaxItems]; apply IH.
Qed.

Lemma lastMaxItems_noResize (ys : list call) (n : Go.int) :
  noResize ys = true -> lastMaxItems ys n = n.
Proof.
  unfold noResize.
  induction ys as [|cl ys IH]; cbn [forallb lastMaxItems]; intro Hys.
  - reflexivity.
  - apply andb_prop in Hys. destruct Hys as [Hcl Hys].
    destruct cl; cbn in Hcl; try discriminate Hcl; apply IH; exact Hys.
Qed.

Lemma lastMaxItems_origin (calls : list call) (n : Go.int) :
  lastMaxItems calls n = n
  \/ In (CSetMaxItems (lastMaxItems calls n)) calls.
Proof.
  revert n. induction calls as [|cl calls IH]; intro n.
  - left. reflexivity.
  - destruct cl as [key|key value priority expire|m]; cbn [lastMaxItems].
    + destruct (IH n) as [Heq|Hin]; [left; exact Heq|right; right; exact Hin].
    + destruct (IH n) as [Heq|Hin]; [left; exact Heq|right; right; exact Hin].
    + right. destruct (IH m) as [Heq|Hin].
      * left. rewrite Heq. reflexivity.
      * right. exact Hin.
Qed.

(** X1.  A sequence made of [Get] and [Set] calls only, however long,
    leaves the cache exactly as it found it. *)
Theorem get_set_sequences_keep_state :
  forall (calls : list call) (c : PriorityExpiryCache),
    noResize calls = true -> run calls c = c.
Proof.
  unfold noResize.
  induction calls as [|cl calls IH]; intros c Hcalls.
  - reflexivity.
  - cbn [forallb] in Hcalls. apply andb_prop in Hcalls.
    destruct Hcalls as [Hcl Hrest].
    cbn [run]. rewrite (IH _ Hrest).
    destruct cl; cbn in Hcl; try discriminate Hcl; step_cache; reflexivity.
Qed.

Lemma get_set_sequences_keep_state_witness :
  noResize touch_calls = false
  /\ noResize abc_calls = true
  /\ run abc_calls (NewCache 7) = NewCache 7.
Proof.
  split; [reflexivity|].
  split; [reflexivity|].
  apply (get_set_sequences_keep_state abc_calls (NewCache 7)).
  reflexivity.
Defined.

(** X2.  After a [SetMaxItems b] that no later [SetMaxItems] follows, the
    cache is in the state of [NewCache b], whatever the state at the start
    and whatever calls came before or ([Get] and [Set]) after. *)
Theorem last_resize_decides_state :
  forall (xs ys : list call) (b : Go.int) (c : PriorityExpiryCache),
    noResize ys = true ->
    run (xs ++ CSetMaxItems b :: ys) c = NewCache b.
Proof.
  intros xs ys b c Hys.
  rewrite run_state, lastMaxItems_app.
  cbn [lastMaxItems].
  rewrite (lastMaxItems_noResize ys b Hys).
  reflexivity.
Qed.

Lemma last_resize_decides_state_witness :
  noResize [CGet "A"; CSet "B" Go.nil 3 0] = true
  /\ run (lru_calls ++ CSetMaxItems (-4) :: [CGet "A"; CSet "B" Go.nil 3 0])
         (NewCache 3)
     = NewCache (-4).
Proof.
  split; [reflexivity|].
  apply (last_resize_decides_state lru_calls [CGet "A"; CSet "B" Go.nil 3 0]
           (-4) (NewCache 3)).
  reflexivity.
Defined.

(** X3.  Only the [SetMaxItems] calls of a sequence matter for the state
    it ends in: erasing every [Get] and [Set] call gives the same state. *)
Theorem only_resizes_matter :
  forall (calls : list call) (c : PriorityExpiryCache),
    run calls c = run (filter isResize calls) c.
Proof.
  induction calls as [|cl calls IH]; intro c.
  - reflexivity.
  - destruct cl as [key|key value priority expire|m];
      cbn [filter isResize run]; rewrite IH; step_cache; reflexivity.
Qed.

(** X4.  A [Get] or a [Set] call commutes with any other call: swapping the
    two leaves the same state. *)
Theorem get_set_commute_with_all :
  forall (cl cl' : call) (c : PriorityExpiryCache),
    isResize cl = false ->
    exec cl' (exec cl c) = exec cl (exec cl' c).
Proof.
  intros cl cl' c Hcl.
  destruct cl as [key|key value priority expire|m]; try discriminate Hcl;
    step_cache; reflexivity.
Qed.

Lemma get_set_commute_with_all_witness :
  isResize (CSet "k" (Go.box (Go.DBool true)) 2 5) = false
  /\ exec (CSetMaxItems 9) (exec (CSet "k" (Go.box (Go.DBool true)) 2 5) (NewCache 1))
     = exec (CSet "k" (Go.box (Go.DBool true)) 2 5) (exec (CSetMaxItems 9) (NewCache 1)).
Proof.
  split; [reflexivity|].
  apply (get_set_commute_with_all (CSet "k" (Go.box (Go.DBool true)) 2 5)
           (CSetMaxItems 9) (NewCache 1)).
  reflexivity.
Defined.

(** X5.  Two [SetMaxItems] calls commute exactly when they store the same
    capacity: in either order the later one decides. *)
Theorem resizes_commute_iff_equal :
  forall (a b : Go.int) (c : PriorityExpiryCache),
    after (SetMaxItems a) (after (SetMaxItems b) c)
    = after (SetMaxItems b) (after (SetMaxItems a) c)
    <-> a = b.
Proof.
  intros a b c.
  rewrite !SetMaxItems_after.
  split.
  - intro Heq. injection Heq as Hab. exact Hab.
  - intro Hab. rewrite Hab. reflexivity.
Qed.

(** X6.  The capacity of a cache is never invented: after any sequence of
    calls it is the capacity the sequence started with or the argument of
    one of its [SetMaxItems] calls. *)
Theorem capacity_never_invented :
  forall (calls : list call) (c : PriorityExpiryCache),
    maxItems (run calls c) = maxItems c
    \/ In (CSetMaxItems (maxItems (run calls c))) calls.
Proof.
  intros calls c.
  rewrite run_state. cbn [maxItems].
  apply lastMaxItems_origin.
Qed.

(** ** Caches behind pointers *)

Lemma update_length (h : Heap.heap) (a : Heap.addr) (s : PriorityExpiryCache) :
  List.length (Heap.update h a s) = List.length h.
Proof.
  revert a. induction h as [|x h IH]; intro a.
  - reflexivity.
  - destruct a as [|a]; cbn [Heap.update List.length].
    + reflexivity.
    + rewrite IH. reflexivity.
Qed.

Lemma nth_error_update_same (h : Heap.heap) (a : Heap.addr)
    (s : PriorityExpiryCache) :
  (a < List.length h)%nat -> nth_error (Heap.update h a s) a = Some s.
Proof.
  revert a. induction h as [|x h IH]; intros a Ha; cbn [List.length] in Ha.
  - lia.
  - destruct a as [|a]; cbn [Heap.update nth_error].
    + reflexivity.
    + apply IH. lia.
Qed.

Lemma nth_error_update_other (h : Heap.heap) (a b : Heap.addr)
    (s : PriorityExpiryCache) :
  a <> b -> nth_error (Heap.update h a s) b = nth_error h b.
Proof.
  revert a b. induction h as [|x h IH]; intros a b Hab.
  - reflexivity.
  - destruct a as [|a], b as [|b]; cbn [Heap.update nth_error];
      try reflexivity.
    + congruence.
    + apply IH. congruence.
Qed.

Lemma SetMaxItems_allocated (a : Heap.addr) (n : Go.int) (h : Heap.heap) :
  (a < List.length h)%nat ->
  Heap.SetMaxItems (Some a) n h = Heap.Done tt (Heap.update h a (mkCache n)).
Proof.
  intro Ha.
  unfold Heap.SetMaxItems, Heap.hbind, Heap.assign_maxItems.
  destruct (nth_error h a) as [s|] eqn:Hs.
  - reflexivity.
  - apply nth_error_None in Hs. lia.
Qed.

Lemma SetMaxItems_unallocated (a : Heap.addr) (n : Go.int) (h : Heap.heap) :
  (List.length h <= a)%nat -> Heap.SetMaxItems (Some a) n h = Heap.Panic.
Proof.
  intro Ha.
  unfold Heap.SetMaxItems, Heap.hbind, Heap.assign_maxItems.
  apply nth_error_None in Ha. rewrite Ha. reflexivity.
Qed.

Lemma exec_length (st : Heap.stmt) (h h' : Heap.heap) :
  Heap.exec st h = Some h' ->
  List.length h' = (List.length h + Heap.allocations [st])%nat.
Proof.
  destruct st as [n|c key|c key value priority expire|c n];
    cbn [Heap.exec Heap.allocations filter List.length].
  - cbn. intro E. injection E as <-. rewrite length_app. reflexivity.
  - cbn. intro E. injection E as <-. lia.
  - cbn. intro E. injection E as <-. lia.
  - destruct c as [a|].
    + destruct (Nat.ltb_spec a (List.length h)) as [Ha|Ha].
      * rewrite (SetMaxItems_allocated a n h Ha). cbn.
        intro E. injection E as <-. rewrite update_length. lia.
      * rewrite (SetMaxItems_unallocated a n h Ha). cbn. discriminate.
    + cbn. discriminate.
Qed.

Lemma allocations_cons (st : Heap.stmt) (prog : list Heap.stmt) :
  Heap.allocations (st :: prog)
  = (Heap.allocations [st] + Heap.allocations prog)%nat.
Proof.
  unfold Heap.allocations. cbn [filter].
  destruct st; reflexivity.
Qed.

Lemma resizesAllocated_step (st : Heap.stmt) (prog : list Heap.stmt)
    (h h' : Heap.heap) :
  Heap.exec st h = Some h' ->
  Heap.resizesAllocated (st :: prog) (List.length h)
  = Heap.resizesAllocated prog (List.length h').
Proof.
  intro E. pose proof (exec_length st h h' E) as Hlen.
  destruct st as [n|c key|c key value priority expire|c n];
    cbn [Heap.resizesAllocated]; cbn in Hlen.
  - rewrite Hlen. f_equal. lia.
  - rewrite Hlen. f_equal. lia.
  - rewrite Hlen. f_equal. lia.
  - destruct c as [a|]; [|discriminate E].
    destruct (Nat.ltb_spec a (List.length h)) as [Ha|Ha].
    + rewrite Hlen. cbn [andb]. f_equal. lia.
    + cbn [Heap.exec] in E.
      rewrite (SetMaxItems_unallocated a n h Ha) in E. discriminate E.
Qed.

Lemma resizesAllocated_stuck (st : Heap.stmt) (prog : list Heap.stmt)
    (h : Heap.heap) :
  Heap.exec st h = None ->
  Heap.resizesAllocated (st :: prog) (List.length h) = false.
Proof.
  destruct st as [n|c key|c key value priority expire|c n];
    cbn [Heap.exec]; try (cbn; discriminate).
  destruct c as [a|]; [|reflexivity].
  cbn [Heap.resizesAllocated].
  destruct (Nat.ltb_spec a (List.length h)) as [Ha|Ha]; [|reflexivity].
  rewrite (SetMaxItems_allocated a n h Ha). cbn. discriminate.
Qed.

(** What a program does, read off its text and the size of the store. *)
Lemma run_characterised (prog : list Heap.stmt) (h : Heap.heap) :
  match Heap.run prog h with
  | Some h' =>
      Heap.resizesAllocated prog (List.length h) = true
      /\ List.length h' = (List.length h + Heap.allocations prog)%nat
  | None => Heap.resizesAllocated prog (List.length h) = false
  end.
Proof.
  revert h. induction prog as [|st prog IH]; intro h.
  - cbn. split; [reflexivity|lia].
  - cbn [Heap.run].
    destruct (Heap.exec st h) as [h1|] eqn:E.
    + specialize (IH h1).
      rewrite (resizesAllocated_step st prog h h1 E), allocations_cons.
      pose proof (exec_length st h h1 E) as Hlen.
      destruct (Heap.run prog h1) as [h'|].
      * destruct IH as [Hsafe Hlen']. split; [exact Hsafe|lia].
      * exact IH.
    + apply resizesAllocated_stuck. exact E.
Qed.

(** X7.  [Get] and [Set] return on every receiver, the nil pointer
    included, and leave every cache as it was; [SetMaxItems] panics exactly
    when its receiver points to no cache, as the nil pointer does. *)
Theorem only_SetMaxItems_dereferences :
  forall (c : Heap.ptr) (h : Heap.heap) (key : string) (value : Go.interface)
         (priority n : Go.int) (expire : Go.Time),
    Heap.Get c key h = Heap.Done Go.nil h
    /\ Heap.Set_ c key value priority expire h = Heap.Done tt h
    /\ (Heap.SetMaxItems c n h = Heap.Panic <-> Heap.deref c h = None)
    /\ Heap.SetMaxItems Heap.nilptr n h = Heap.Panic.
Proof.
  intros c h key value priority n expire.
  split; [reflexivity|].
  split; [reflexivity|].
  split; [|reflexivity].
  destruct c as [a|]; cbn [Heap.deref].
  - destruct (Nat.ltb_spec a (List.length h)) as [Ha|Ha].
    + rewrite (SetMaxItems_allocated a n h Ha).
      split; [discriminate|].
      intro Hnone. apply nth_error_None in Hnone. lia.
    + rewrite (SetMaxItems_unallocated a n h Ha).
      split; [|reflexivity].
      intros _. apply nth_error_None. exact Ha.
  - split; reflexivity.
Qed.

(** X8.  A program whose [SetMaxItems] calls all have a receiver that a
    [NewCache] returned earlier never panics, whatever receivers its [Get]
    and [Set] calls have, and it ends with one more cache per [NewCache]. *)
Theorem allocated_resizes_never_panic :
  forall (prog : list Heap.stmt) (h : Heap.heap),
    Heap.resizesAllocated prog (List.length h) = true ->
    exists h' : Heap.heap,
      Heap.run prog h = Some h'
      /\ List.length h' = (List.length h + Heap.allocations prog)%nat.
Proof.
  intros prog h Hsafe.
  pose proof (run_characterised prog h) as Hrun.
  destruct (Heap.run prog h) as [h'|].
  - exists h'. split; [reflexivity|apply Hrun].
  - congruence.
Qed.

Lemma allocated_resizes_never_panic_witness :
  Heap.resizesAllocated
    [Heap.SNew 2; Heap.SGet Heap.nilptr "k"; Heap.SResize (Some 0%nat) 5;
     Heap.SNew 0; Heap.SResize (Some 1%nat) (-1)] (List.length (@nil PriorityExpiryCache))
  = true
  /\ exists h' : Heap.heap,
       Heap.run
         [Heap.SNew 2; Heap.SGet Heap.nilptr "k"; Heap.SResize (Some 0%nat) 5;
          Heap.SNew 0; Heap.SResize (Some 1%nat) (-1)] []
       = Some h'
       /\ List.length h' = 2%nat.
Proof.
  split; [reflexivity|].
  apply (allocated_resizes_never_panic
           [Heap.SNew 2; Heap.SGet Heap.nilptr "k"; Heap.SResize (Some 0%nat) 5;
            Heap.SNew 0; Heap.SResize (Some 1%nat) (-1)] []).
  reflexivity.
Defined.

(** X9.  A program with a [SetMaxItems] call whose receiver is nil, or is
    not yet allocated when the call is reached, panics. *)
Theorem unallocated_resize_panics :
  forall (prog : list Heap.stmt) (h : Heap.heap),
    Heap.resizesAllocated prog (List.length h) = false ->
    Heap.run prog h = None.
Proof.
  intros prog h Hbad.
  pose proof (run_characterised prog h) as Hrun.
  destruct (Heap.run prog h) as [h'|].
  - destruct Hrun as [Hsafe _]. congruence.
  - reflexivity.
Qed.

Lemma unallocated_resize_panics_witness :
  Heap.resizesAllocated
    [Heap.SNew 2; Heap.SSet Heap.nilptr "k" Go.nil 1 0;
     Heap.SResize Heap.nilptr 5] (List.length (@nil PriorityExpiryCache))
  = false
  /\ Heap.run
       [Heap.SNew 2; Heap.SSet Heap.nilptr "k" Go.nil 1 0;
        Heap.SResize Heap.nilptr 5] []
     = None.
Proof.
  split; [reflexivity|].
  apply (unallocated_resize_panics
           [Heap.SNew 2; Heap.SSet Heap.nilptr "k" Go.nil 1 0;
            Heap.SResize Heap.nilptr 5] []).
  reflexivity.
Defined.

Lemma exec_frame (st : Heap.stmt) (a : Heap.addr) (h h' : Heap.heap)
    (s : PriorityExpiryCache) :
  Heap.neverResizes a [st] = true ->
  nth_error h a = Some s ->
  Heap.exec st h = Some h' ->
  nth_error h' a = Some s.
Proof.
  intros Hst Hs E.
  assert (Ha : (a < List.length h)%nat)
    by (apply nth_error_Some; congruence).
  destruct st as [n|c key|c key value priority expire|c n]; cbn in E.
  - injection E as <-. rewrite nth_error_app1; assumption.
  - injection E as <-. exact Hs.
  - injection E as <-. exact Hs.
  - destruct c as [b|]; [|discriminate E].
    cbn [Heap.neverResizes] in Hst.
    apply andb_prop in Hst. destruct Hst as [Hab _].
    destruct (Nat.eqb_spec a b) as [Heq|Hneq]; [discriminate Hab|].
    change (Heap.heap_of (Heap.SetMaxItems (Some b) n h) = Some h') in E.
    destruct (Nat.ltb_spec b (List.length h)) as [Hb|Hb].
    + rewrite (SetMaxItems_allocated b n h Hb) in E. cbn in E.
      injection E as <-.
      rewrite nth_error_update_other; [exact Hs|congruence].
    + rewrite (SetMaxItems_unallocated b n h Hb) in E. discriminate E.
Qed.

Lemma neverResizes_cons (a : Heap.addr) (st : Heap.stmt)
    (prog : list Heap.stmt) :
  Heap.neverResizes a (st :: prog)
  = (Heap.neverResizes a [st] && Heap.neverResizes a prog)%bool.
Proof.
  destruct st as [n|c key|c key value priority expire|c n];
    cbn [Heap.neverResizes andb]; try reflexivity.
  destruct c as [b|]; cbn [andb]; [|reflexivity].
  destruct (negb (Nat.eqb a b)); reflexivity.
Qed.

(** X10.  Caches are independent: through any program that completes, a
    cache that is the receiver of none of the program's [SetMaxItems] calls
    keeps its state, whatever is done to the other caches. *)
Theorem untouched_cache_keeps_state :
  forall (prog : list Heap.stmt) (a : Heap.addr) (h h' : Heap.heap)
         (s : PriorityExpiryCache),
    Heap.neverResizes a prog = true ->
    nth_error h a = Some s ->
    Heap.run prog h = Some h' ->
    nth_error h' a = Some s.
Proof.
  induction prog as [|st prog IH]; intros a h h' s Hprog Hs Hrun.
  - cbn in Hrun. injection Hrun as <-. exact Hs.
  - rewrite neverResizes_cons in Hprog.
    apply andb_prop in Hprog. destruct Hprog as [Hst Hrest].
    cbn [Heap.run] in Hrun.
    destruct (Heap.exec st h) as [h1|] eqn:E; [|discriminate Hrun].
    apply (IH a h1 h' s Hrest); [|exact Hrun].
    apply (exec_frame st a h h1 s Hst Hs E).
Qed.

Lemma untouched_cache_keeps_state_witness :
  Heap.neverResizes 0%nat
    [Heap.SNew 4; Heap.SResize (Some 1%nat) 9; Heap.SSet (Some 0%nat) "k" Go.nil 1 0]
  = true
  /\ nth_error [NewCache 3] 0%nat = Some (NewCache 3)
  /\ Heap.run
       [Heap.SNew 4; Heap.SResize (Some 1%nat) 9; Heap.SSet (Some 0%nat) "k" Go.nil 1 0]
       [NewCache 3]
     = Some [NewCache 3; NewCache 9]
  /\ nth_error [NewCache 3; NewCache 9] 0%nat = Some (NewCache 3).
Proof.
  split; [reflexivity|].
  split; [reflexivity|].
  split; [reflexivity|].
  apply (untouched_cache_keeps_state
           [Heap.SNew 4; Heap.SResize (Some 1%nat) 9;
            Heap.SSet (Some 0%nat) "k" Go.nil 1 0]
           0%nat [NewCache 3] [NewCache 3; NewCache 9] (NewCache 3));
    reflexivity.
Defined.

(** X11.  [NewCache] never returns nil: it returns a pointer that pointed
    to no cache before, now points to a cache whose capacity is the
    argument, and every cache that existed is left as it was. *)
Theorem NewCache_returns_fresh_cache :
  forall (n : Go.int) (h : Heap.heap),
    exists (a : Heap.addr) (h' : Heap.heap),
      Heap.NewCache n h = Heap.Done (Some a) h'
      /\ Heap.deref (Some a) h = None
      /\ Heap.deref (Some a) h' = Some (NewCache n)
      /\ (forall (b : Heap.addr) (s : PriorityExpiryCache),
            nth_error h b = Some s -> nth_error h' b = Some s).
Proof.
  intros n h.
  exists (List.length h), (h ++ [mkCache n])%list.
  split; [reflexivity|].
  cbn [Heap.deref].
  split; [apply nth_error_None; lia|].
  split.
  - rewrite nth_error_app2 by lia.
    rewrite Nat.sub_diag. reflexivity.
  - intros b s Hb.
    rewrite nth_error_app1; [exact Hb|].
    apply nth_error_Some. congruence.
Qed.

(** X12.  On a receiver that points to a cache, each method returns what
    the method on the struct returns and leaves the receiver's cache in the
    state the method on the struct leaves; the store keeps its size, and
    [SetMaxItems] changes no other cache. *)
Theorem pointer_methods_agree :
  forall (a : Heap.addr) (h : Heap.heap) (s : PriorityExpiryCache)
         (key : string) (value : Go.interface) (priority n : Go.int)
         (expire : Go.Time),
    nth_error h a = Some s ->
    (Heap.Get (Some a) key h = Heap.Done (result (Get key) s) h
     /\ after (Get key) s = s)
    /\ (Heap.Set_ (Some a) key value priority expire h = Heap.Done tt h
        /\ after (Set_ key value priority expire) s = s)
    /\ (exists h' : Heap.heap,
          Heap.SetMaxItems (Some a) n h = Heap.Done tt h'
          /\ nth_error h' a = Some (after (SetMaxItems n) s)
          /\ List.length h' = List.length h
          /\ (forall b : Heap.addr, b <> a -> nth_error h' b = nth_error h b)).
Proof.
  intros a h s key value priority n expire Hs.
  assert (Ha : (a < List.length h)%nat)
    by (apply nth_error_Some; congruence).
  split; [split; [reflexivity|apply Get_after]|].
  split; [split; [reflexivity|apply Set_after]|].
  exists (Heap.update h a (mkCache n)).
  split; [apply SetMaxItems_allocated; exact Ha|].
  split; [rewrite SetMaxItems_after; apply nth_error_update_same; exact Ha|].
  split; [apply update_length|].
  intros b Hb. apply nth_error_update_other. congruence.
Qed.

Lemma pointer_methods_agree_witness :
  nth_error [NewCache 3; NewCache 8] 1%nat = Some (NewCache 8)
  /\ exists h' : Heap.heap,
       Heap.SetMaxItems (Some 1%nat) 0 [NewCache 3; NewCache 8] = Heap.Done tt h'
       /\ nth_error h' 1%nat = Some (after (SetMaxItems 0) (NewCache 8))
       /\ List.length h' = List.length [NewCache 3; NewCache 8]
       /\ (forall b : Heap.addr,
             b <> 1%nat -> nth_error h' b = nth_error [NewCache 3; NewCache 8] b).
Proof.
  split; [reflexivity|].
  apply (pointer_methods_agree 1%nat [NewCache 3; NewCache 8] (NewCache 8)
           "k" Go.nil 1 0 0).
  reflexivity.
Defined.
